(** * mes_depenses: registration, login and logout

    A shallow embedding of [app/validators/auth.ts],
    [app/controllers/auth_controller.ts] and of the [users] migration.

    The controller is asynchronous code over a relational store: here a
    request handler is a function from the store (and what the request
    brings) to what it answers and the store afterwards.  An answer is
    either a response the handler sends itself or an exception it lets
    through to the framework. *)

From Stdlib Require Import ZArith.
From stdpp Require Import base option list strings pretty.
From stdpp Require Import gmap.

Local Open Scope string_scope.

(** ** Collaborators *)

(** The hashing driver the model class is configured with: [make] draws a
    salt and digests a plain text, [verify] checks a plain text against a
    stored digest. *)
Class Hash := {
  hash_make : string -> string -> string;
  hash_verify : string -> string -> bool
}.

(** The address grammar of the validation library's [email()] rule (local
    part, domain, top level domain), past its length guard. *)
Class AddressSyntax := {
  emailSyntax : string -> bool
}.

(** ** Data model *)

Definition DateTime := Z.

(** A row of the table created by the migration's [up()].  All [id]s are
    auto-increment keys, which start at one. *)
Module User.
Record t := mk {
  id : positive;
  name : option string;
  email : string;
  password : string;
  status : string;
  isAdmin : bool;
  created_at : DateTime;
  updated_at : option DateTime;
  deletedAt : option DateTime
}.
End User.

(** Modelled from the spec: the row of the token provider
    ([User.accessTokens], set up in the model class, which is not among the
    sources).  "Opaque identifier + secret value pair, associated with
    exactly one User". *)
Module AccessToken.
Record t := mk {
  identifier : positive;
  tokenableId : positive;
  secret : string
}.
End AccessToken.

Record Store := {
  users : list User.t;
  users_seq : positive;
  access_tokens : list AccessToken.t;
  access_tokens_seq : positive
}.

(** What a request brings besides its body: the clock and the entropy the
    hashing driver and the token provider draw from. *)
Record Env := {
  now : DateTime;
  random : string
}.

(** [.where('email', value).first()] on the [users] table: the first row,
    in insertion order, whose email is the value asked for. *)
Definition first_where_email (value : string) (st : Store) : option User.t :=
  List.find (fun u => String.eqb (User.email u) value) (users st).

(** ** Responses and exceptions *)

#[local] Unset Elimination Schemes.
Inductive Value :=
| VNull
| VBool (b : bool)
| VNum (n : Z)
| VStr (s : string)
| VDate (d : DateTime)
| VArr (l : list Value)
| VObj (fields : list (string * Value)).
#[local] Set Elimination Schemes.

Record Response := {
  status : Z;
  body : Value
}.

(** One entry of a validation report. *)
Record FieldError := {
  field : string;
  rule : string
}.

Inductive Exception :=
| E_VALIDATION_ERROR (messages : list FieldError)
| E_INVALID_CREDENTIALS
| E_UNAUTHORIZED_ACCESS
| TypeError.

Inductive Outcome :=
| Sent (r : Response)
| Raised (e : Exception).

(** Modelled from the spec: the status the framework's exception handler
    (not among the sources) answers with, section 6: "422 validation",
    "400 invalid credentials", "401".  An error of the language itself is
    no answer of the application: it is a 500. *)
Definition http_status (o : Outcome) : Z :=
  match o with
  | Sent r => status r
  | Raised (E_VALIDATION_ERROR _) => 422
  | Raised E_INVALID_CREDENTIALS => 400
  | Raised E_UNAUTHORIZED_ACCESS => 401
  | Raised TypeError => 500
  end.

(** [{ errors: [{ message: m }, ...] }] *)
Definition errors (ms : list string) : Value :=
  VObj [("errors", VArr (map (fun m => VObj [("message", VStr m)]) ms))].

(** The names of the fields of a response body. *)
Definition keys (v : Value) : list string :=
  match v with
  | VObj fields => map fst fields
  | _ => []
  end.

(** * app/validators/auth.ts *)

Module Validators.

(** A request body: a field that was not sent is [None]. *)
Record Body := {
  name : option string;
  email : option string;
  password : option string
}.

Inductive Checked (A : Type) :=
| Valid (a : A)
| Invalid (e : FieldError).
Arguments Valid {A} a.
Arguments Invalid {A} e.

Definition minLength (n : nat) (s : string) : bool := (n <=? String.length s)%nat.
Definition maxLength (n : nat) (s : string) : bool := (String.length s <=? n)%nat.

Section Rules.
Context {syntax : AddressSyntax}.

(** [email()]: VineJS hands the subject to the [isEmail] check of
    validator.js with its default options.  [ignore_max_length] is false
    in them, so a subject of more than 254 characters is refused before
    its grammar is looked at. *)
Definition isEmail (s : string) : bool :=
  if (254 <? String.length s)%nat then false else emailSyntax s.

(** The callback given to [unique(...)]: [!user], for the first row of
    [users] with that email. *)
Definition unique (st : Store) (value : string) : bool :=
  match first_where_email value st with
  | Some _ => false
  | None => true
  end.

(** A chain of rules on a string field stops at the first rule that
    fails and reports it. *)
Fixpoint chain (f : string) (rules : list (string * (string -> bool)))
    (s : string) : Checked string :=
  match rules with
  | [] => Valid s
  | (r, check) :: rules' =>
      if check s then chain f rules' s
      else Invalid {| field := f; rule := r |}
  end.

Definition required (f : string) (rules : list (string * (string -> bool)))
    (v : option string) : Checked string :=
  match v with
  | None => Invalid {| field := f; rule := "required" |}
  | Some s => chain f rules s
  end.

Definition optional (f : string) (rules : list (string * (string -> bool)))
    (v : option string) : Checked (option string) :=
  match v with
  | None => Valid None
  | Some s =>
      match chain f rules s with
      | Valid s' => Valid (Some s')
      | Invalid e => Invalid e
      end
  end.

Definition report {A} (c : Checked A) : list FieldError :=
  match c with
  | Valid _ => []
  | Invalid e => [e]
  end.

Record RegisterPayload := {
  r_name : option string;
  r_email : string;
  r_password : string
}.

Record LoginPayload := {
  l_email : string;
  l_password : string
}.

Definition register_name :=
  optional "name" [("minLength", minLength 3); ("maxLength", maxLength 64)].
Definition register_email (st : Store) :=
  required "email" [("email", isEmail); ("database.unique", unique st)].
Definition register_password :=
  required "password" [("minLength", minLength 8); ("maxLength", maxLength 512)].

(** Every field is checked; the reports of the fields that fail are
    collected in the order of the schema. *)
Definition registerValidator (st : Store) (b : Body)
    : list FieldError + RegisterPayload :=
  let cn := register_name (name b) in
  let ce := register_email st (email b) in
  let cp := register_password (password b) in
  match cn, ce, cp with
  | Valid n, Valid e, Valid p =>
      inr {| r_name := n; r_email := e; r_password := p |}
  | _, _, _ => inl (report cn ++ report ce ++ report cp)%list
  end.

Definition login_email :=
  required "email" [("email", isEmail)].
Definition login_password :=
  required "password" [("minLength", minLength 8); ("maxLength", maxLength 32)].

Definition loginValidator (b : Body) : list FieldError + LoginPayload :=
  let ce := login_email (email b) in
  let cp := login_password (password b) in
  match ce, cp with
  | Valid e, Valid p => inr {| l_email := e; l_password := p |}
  | _, _ => inl (report ce ++ report cp)%list
  end.

End Rules.

End Validators.

(** * The model class

    [#models/user] is not among the sources: what the controller calls on
    it is modelled here. *)

Module UserModel.
Import Validators.

Section Model.
Context {hasher : Hash}.

(** Modelled from the spec: [User.verifyCredentials], of the model class
    (not among the sources).  "Look up User by email; fail with
    InvalidCredentials if no match or password hash mismatch." *)
Definition verifyCredentials (st : Store) (email password : string)
    : Exception + User.t :=
  match first_where_email email st with
  | None => inl E_INVALID_CREDENTIALS
  | Some user =>
      if hash_verify (User.password user) password then inr user
      else inl E_INVALID_CREDENTIALS
  end.

(** The message of the storage engine when the unique index on [email]
    (migration, [.unique()]) refuses a row. *)
Definition unique_violation : string := "users.email: unique constraint".

(** Modelled from the spec: the hook of the model class (not among the
    sources) that runs before a row is written.  "Hash the password and
    persist a new User": the column holds what the hashing driver makes of
    the plain text. *)
Definition hashed (env : Env) (plain : string) : string :=
  hash_make (random env) plain.

(** The instance [User.create] hands back.  It lives in memory and
    carries what was written and nothing else: the payload (a name only
    when one was sent, the password as it was hashed), the two timestamps
    set on save and the key the insert returned.  The columns the table
    filled in by itself are not on it. *)
Record Instance := {
  i_name : option string;
  i_email : string;
  i_password : string;
  i_createdAt : DateTime;
  i_updatedAt : DateTime;
  i_id : positive
}.

(** The row the table holds for an instance.  The columns the insert does
    not give take the defaults of the migration: [status] is ['active'],
    [isAdmin] is [false], [deletedAt] is [null]. *)
Definition stored (i : Instance) : User.t :=
  {| User.id := i_id i;
     User.name := i_name i;
     User.email := i_email i;
     User.password := i_password i;
     User.status := "active";
     User.isAdmin := false;
     User.created_at := i_createdAt i;
     User.updated_at := Some (i_updatedAt i);
     User.deletedAt := None |}.

(** [User.create(payload)]: the key comes from the sequence, the row is
    inserted, the instance is handed back.  The unique index on [email]
    refuses a second row with the same address. *)
Definition create (env : Env) (st : Store) (payload : RegisterPayload)
    : string + (Instance * Store) :=
  match first_where_email (r_email payload) st with
  | Some _ => inl unique_violation
  | None =>
      let user := {|
        i_name := r_name payload;
        i_email := r_email payload;
        i_password := hashed env (r_password payload);
        i_createdAt := now env;
        i_updatedAt := now env;
        i_id := users_seq st |} in
      inr (user, {|
        users := (users st ++ [stored user])%list;
        users_seq := Pos.succ (users_seq st);
        access_tokens := access_tokens st;
        access_tokens_seq := access_tokens_seq st |})
  end.

Definition nullable {A} (f : A -> Value) (v : option A) : Value :=
  match v with
  | Some a => f a
  | None => VNull
  end.

(** Modelled from the spec: [user.serialize()], of the model class (not
    among the sources).  "The serialized User (password hash never
    included)": every column but [password]. *)
Definition serialize (user : User.t) : list (string * Value) :=
  [ ("id", VNum (Zpos (User.id user)));
    ("name", nullable VStr (User.name user));
    ("email", VStr (User.email user));
    ("status", VStr (User.status user));
    ("isAdmin", VBool (User.isAdmin user));
    ("createdAt", VDate (User.created_at user));
    ("updatedAt", nullable VDate (User.updated_at user));
    ("deletedAt", nullable VDate (User.deletedAt user)) ].

(** Modelled from the spec: [serialize()] on the instance [create] hands
    back, of the model class (not among the sources).  "Returns the
    created User (password hash excluded from output)": what the instance
    carries, in the order it was set, but the password. *)
Definition serialize_created (i : Instance) : list (string * Value) :=
  (match i_name i with
   | Some n => [("name", VStr n)]
   | None => []
   end ++
   [ ("email", VStr (i_email i));
     ("createdAt", VDate (i_createdAt i));
     ("updatedAt", VDate (i_updatedAt i));
     ("id", VNum (Zpos (i_id i))) ])%list.

(** Modelled from the spec: the bearer string of a token, as the token
    provider of the model class (not among the sources) renders it: its
    prefix, then the identifier and the secret (their encoding is left
    out).  This is the "non-empty [token] string" of the login answer. *)
Definition value (t : AccessToken.t) : string :=
  "oat_" ++ pretty (Npos (AccessToken.identifier t)) ++ "." ++ AccessToken.secret t.

Definition toJSON (t : AccessToken.t) : Value :=
  VObj [("type", VStr "bearer"); ("token", VStr (value t))].

(** Modelled from the spec: [User.accessTokens.create(user)].  "Mint a new
    AccessToken bound to the user": a fresh identifier from the sequence, a
    secret drawn from the entropy of the request. *)
Definition accessTokens_create (env : Env) (st : Store) (user : User.t)
    : AccessToken.t * Store :=
  let token := {|
    AccessToken.identifier := access_tokens_seq st;
    AccessToken.tokenableId := User.id user;
    AccessToken.secret := random env |} in
  (token, {|
    users := users st;
    users_seq := users_seq st;
    access_tokens := (access_tokens st ++ [token])%list;
    access_tokens_seq := Pos.succ (access_tokens_seq st) |}).

(** The token [identifier] of [user]. *)
Definition designates (user : User.t) (identifier : positive)
    (t : AccessToken.t) : Prop :=
  AccessToken.identifier t = identifier /\ AccessToken.tokenableId t = User.id user.

#[global] Instance designates_dec user identifier t :
  Decision (designates user identifier t).
Proof. unfold designates. apply _. Defined.

(** Modelled from the spec: [User.accessTokens.delete(user, identifier)].
    "Revoke (delete) exactly that token for that user." *)
Definition accessTokens_delete (user : User.t) (identifier : positive)
    (st : Store) : Store :=
  {| users := users st;
     users_seq := users_seq st;
     access_tokens :=
       filter (fun t => ~ designates user identifier t) (access_tokens st);
     access_tokens_seq := access_tokens_seq st |}.

End Model.

End UserModel.

(** * app/controllers/auth_controller.ts *)

Module AuthController.
Import Validators UserModel.

Definition ok (b : Value) : Response := {| status := 200; body := b |}.
Definition created (b : Value) : Response := {| status := 201; body := b |}.
Definition conflict (b : Value) : Response := {| status := 409; body := b |}.

(** The error answers of the controller, under the names the
    specification gives them. *)
Definition DuplicateEmail : Response :=
  conflict (errors ["Cet adresse email existe déjà !"]).

Definition RegistrationFailed (message : string) : Response :=
  {| status := 400; body := errors [message] |}.

Definition AccountDisabled : Response :=
  {| status := 403;
     body := errors
       ["Votre compte a été désactivé. Veuillez contacter les administrateurs !"] |}.

Definition AccountNotFound : Response :=
  {| status := 403; body := errors ["Compte inexistant !"] |}.

Definition TokenMissing : Response :=
  {| status := 401; body := errors ["Token not found"] |}.

(** [E_INVALID_CREDENTIALS], thrown by [verifyCredentials] and left to the
    framework. *)
Definition InvalidCredentials : Outcome := Raised E_INVALID_CREDENTIALS.

(** [E_VALIDATION_ERROR], thrown by [request.validateUsing]. *)
Definition ValidationError (messages : list FieldError) : Outcome :=
  Raised (E_VALIDATION_ERROR messages).

Section Controller.
Context {hasher : Hash} {syntax : AddressSyntax}.

(** [register], from the lookup of line 17 on: what it does with a payload
    that passed validation.  [create] gives an instance or throws, so the
    [!user] branch inside the [try] is never taken; what is thrown is
    caught and answered with status 400. *)
Definition register_payload (env : Env) (st : Store)
    (payload : RegisterPayload) : Outcome * Store :=
  let emailexist := first_where_email (r_email payload) st in
  match emailexist with
  | Some _ => (Sent DuplicateEmail, st)
  | None =>
      match create env st payload with
      | inr (user, st') => (Sent (created (VObj (serialize_created user))), st')
      | inl message => (Sent (RegistrationFailed message), st)
      end
  end.

Definition register (env : Env) (st : Store) (b : Body) : Outcome * Store :=
  match registerValidator st b with
  | inl messages => (ValidationError messages, st)
  | inr payload => register_payload env st payload
  end.

(** [user.deletedAt] as a condition: a timestamp object is truthy, [null]
    is not. *)
Definition truthy {A} (v : option A) : bool :=
  match v with
  | Some _ => true
  | None => false
  end.

Definition login (env : Env) (st : Store) (b : Body) : Outcome * Store :=
  match loginValidator b with
  | inl messages => (ValidationError messages, st)
  | inr payload =>
      match verifyCredentials st (l_email payload) (l_password payload) with
      | inl e => (Raised e, st)
      | inr user =>
          if String.eqb (User.status user) "disable" then
            (Sent AccountDisabled, st)
          else if truthy (User.deletedAt user) then
            (Sent AccountNotFound, st)
          else
            let '(token, st') := accessTokens_create env st user in
            (Sent (ok (VObj (("token", toJSON token) :: serialize user))), st')
      end
  end.

(** The authenticated user of a request.  [currentAccessToken] is the
    token the access-token guard has attached to it, given by its
    identifier, or [None] when no token is attached to the user. *)
Record Authenticated := {
  user : User.t;
  currentAccessToken : option positive
}.

(** The [auth] of a request context: nobody, or the authenticated user. *)
Definition Auth := option Authenticated.

Definition getUserOrFail (auth : Auth) : Exception + User.t :=
  match auth with
  | Some a => inr (user a)
  | None => inl E_UNAUTHORIZED_ACCESS
  end.

(** [!token] on an identifier: a number is falsy when it is zero, which a
    key of the token table, a number from one on, never is. *)
Definition falsy (identifier : positive) : bool := (Zpos identifier =? 0)%Z.

(** Line 125 reads [auth.user?.currentAccessToken.identifier]: the [?.]
    guards [auth.user] only, so reading [identifier] off a token that is
    not there throws.  The test of line 126 comes after. *)
Definition logout (auth : Auth) (st : Store) : Outcome * Store :=
  match getUserOrFail auth with
  | inl e => (Raised e, st)
  | inr user =>
      match auth ≫= currentAccessToken with
      | None => (Raised TypeError, st)
      | Some token =>
          if falsy token then (Sent TokenMissing, st)
          else
            (Sent (ok (VObj [("message", VStr "Logged out")])),
             accessTokens_delete user token st)
      end
  end.

End Controller.

End AuthController.

(** * The migration of the [users] table *)

Module Migration.

Inductive ColumnType :=
| Increments
| Varchar (length : nat)
| Boolean
| Timestamp.

(** One column as the table builder is told of it.  A column is nullable
    unless [notNullable()] is called on it. *)
Record Column := {
  column : string;
  kind : ColumnType;
  notNullable : bool;
  unique : bool;
  defaultTo : option Value
}.

Definition plain (c : string) (k : ColumnType) : Column :=
  {| column := c; kind := k; notNullable := false; unique := false;
     defaultTo := None |}.

Definition tableName : string := "users".

(** The callback given to [createTable]; [table.string] without a length
    is a column of 255 characters. *)
Definition table : list Column :=
  [ {| column := "id"; kind := Increments; notNullable := true;
       unique := false; defaultTo := None |};
    plain "name" (Varchar 255);
    {| column := "email"; kind := Varchar 254; notNullable := true;
       unique := true; defaultTo := None |};
    {| column := "password"; kind := Varchar 255; notNullable := true;
       unique := false; defaultTo := None |};
    {| column := "status"; kind := Varchar 255; notNullable := false;
       unique := false; defaultTo := Some (VStr "active") |};
    {| column := "isAdmin"; kind := Boolean; notNullable := false;
       unique := false; defaultTo := Some (VBool false) |};
    {| column := "created_at"; kind := Timestamp; notNullable := true;
       unique := false; defaultTo := None |};
    plain "updated_at" Timestamp;
    {| column := "deletedAt"; kind := Timestamp; notNullable := false;
       unique := false; defaultTo := Some VNull |} ].

(** The tables of a database, by name.  A statement the engine refuses
    gives [None]. *)
Definition up (schema : gmap string (list Column))
    : option (gmap string (list Column)) :=
  match schema !! tableName with
  | Some _ => None
  | None => Some (<[tableName := table]> schema)
  end.

Definition down (schema : gmap string (list Column))
    : option (gmap string (list Column)) :=
  match schema !! tableName with
  | Some _ => Some (delete tableName schema)
  | None => None
  end.

End Migration.

(** * What the tables guarantee *)

(** The [users] table: keys are handed out by the sequence ([increments]),
    so they are below it and no two rows share one; no two rows share an
    email (the unique index). *)
Record users_consistent (st : Store) : Prop := {
  user_ids_below :
    Forall (fun u => (User.id u < users_seq st)%positive) (users st);
  user_ids_unique : NoDup (map User.id (users st));
  emails_unique : NoDup (map User.email (users st))
}.

(** The token store: identifiers are handed out by its sequence. *)
Record tokens_consistent (st : Store) : Prop := {
  token_ids_below :
    Forall (fun t => (AccessToken.identifier t < access_tokens_seq st)%positive)
      (access_tokens st);
  token_ids_unique : NoDup (map AccessToken.identifier (access_tokens st))
}.

(** A row as the table holds it, column by column. *)
Definition row_values (u : User.t) : list (string * Value) :=
  [ ("id", VNum (Zpos (User.id u)));
    ("name", UserModel.nullable VStr (User.name u));
    ("email", VStr (User.email u));
    ("password", VStr (User.password u));
    ("status", VStr (User.status u));
    ("isAdmin", VBool (User.isAdmin u));
    ("created_at", VDate (User.created_at u));
    ("updated_at", UserModel.nullable VDate (User.updated_at u));
    ("deletedAt", UserModel.nullable VDate (User.deletedAt u)) ].

(** A value a column takes: not [null] where the column is
    [notNullable()], not longer than the column where it is a string. *)
Definition fits (c : Migration.Column) (v : Value) : Prop :=
  (Migration.notNullable c = true -> v <> VNull) /\
  (forall n s, Migration.kind c = Migration.Varchar n -> v = VStr s ->
     (String.length s <= n)%nat).

Definition row_fits (u : User.t) : Prop :=
  Forall2 (fun c kv => Migration.column c = kv.1 /\ fits c kv.2)
    Migration.table (row_values u).

(** * A small instance

    A toy hashing driver and a toy address grammar, and one store, to run
    the handlers on. *)

Module Sample.
Import Validators UserModel AuthController.

(** The digest keeps the plain text after the salt: good enough to run
    the controller, useless as a hash. *)
Definition toy_make (salt plain : string) : string :=
  "$toy$" ++ salt ++ "$" ++ plain.

Definition toy_verify (digest plain : string) : bool :=
  let n := String.length digest in
  let k := S (String.length plain) in
  String.eqb (String.substring (n - k) k digest) ("$" ++ plain).

Definition toy_hash : Hash :=
  {| hash_make := toy_make; hash_verify := toy_verify |}.

(** An address is anything with an [@] in it. *)
Definition toy_syntax : AddressSyntax :=
  {| emailSyntax := fun s =>
       match String.index 0 "@" s with Some _ => true | None => false end |}.

Definition env0 : Env := {| now := 1700000000%Z; random := "k3" |}.

Definition row (id : positive) (email plain status : string)
    (deletedAt : option DateTime) : User.t :=
  {| User.id := id; User.name := None; User.email := email;
     User.password := toy_make "s" plain; User.status := status;
     User.isAdmin := false; User.created_at := 1600000000%Z;
     User.updated_at := None; User.deletedAt := deletedAt |}.

Definition alice := row 1 "a@x.com" "longenough1" "active" None.
Definition bob := row 2 "b@x.com" "longenough2" "disable" None.
Definition carol := row 3 "c@x.com" "longenough3" "active" (Some 1650000000%Z).
Definition dave := row 4 "d@x.com" "longenough4" "disable" (Some 1650000000%Z).

Definition token1 : AccessToken.t :=
  {| AccessToken.identifier := 1; AccessToken.tokenableId := 1;
     AccessToken.secret := "k1" |}.
Definition token2 : AccessToken.t :=
  {| AccessToken.identifier := 2; AccessToken.tokenableId := 1;
     AccessToken.secret := "k2" |}.

Definition st0 : Store :=
  {| users := [alice; bob; carol; dave]; users_seq := 5;
     access_tokens := [token1; token2]; access_tokens_seq := 3 |}.

Definition credentials (email plain : string) : Body :=
  {| name := None; email := Some email; password := Some plain |}.

(** Forty characters: too long for a login, fine for a registration. *)
Definition long_password : string := "0123456789012345678901234567890123456789".

End Sample.

(** * Properties *)

Import Validators UserModel AuthController.

(** ** The validators *)

Section ValidatorFacts.
Context {syntax : AddressSyntax}.

Lemma chain_Valid f rules s out :
  chain f rules s = Valid out <->
  out = s /\ Forall (fun r => r.2 s = true) rules.
Proof.
  induction rules as [|[r check] rules IH]; cbn [chain].
  - split.
    + intros [= <-]. split; [done | constructor].
    + by intros [-> _].
  - destruct (check s) eqn:Hcheck.
    + rewrite IH, Forall_cons. cbn. tauto.
    + split; [done |]. rewrite Forall_cons. cbn. intros [_ [? _]]. congruence.
Qed.

Lemma required_Valid f rules v out :
  required f rules v = Valid out <->
  v = Some out /\ Forall (fun r => r.2 out = true) rules.
Proof.
  destruct v as [s|]; cbn [required].
  - rewrite chain_Valid. split.
    + intros [-> ?]. done.
    + intros [[= ->] ?]. done.
  - split; [done | by intros [? _]].
Qed.

Lemma within_bounds lo hi s :
  Forall (fun r : string * (string -> bool) => r.2 s = true)
    [("minLength", minLength lo); ("maxLength", maxLength hi)] <->
  (lo <= String.length s <= hi)%nat.
Proof.
  rewrite !Forall_cons, Forall_nil. cbn. unfold minLength, maxLength.
  rewrite !Nat.leb_le. tauto.
Qed.

Lemma registerValidator_inr st b p :
  registerValidator st b = inr p <->
  register_name (name b) = Valid (r_name p) /\
  register_email st (email b) = Valid (r_email p) /\
  register_password (password b) = Valid (r_password p).
Proof.
  unfold registerValidator.
  destruct (register_name (name b)) as [n|en],
    (register_email st (email b)) as [e|ee],
    (register_password (password b)) as [pw|ep];
    cbn; destruct p as [pn pe pp]; cbn;
    (split; [intros [= <- <- <-] || intros [=] | intros (? & ? & ?)]);
    try done; try congruence.
Qed.

Lemma loginValidator_inr b p :
  loginValidator b = inr p <->
  login_email (email b) = Valid (l_email p) /\
  login_password (password b) = Valid (l_password p).
Proof.
  unfold loginValidator.
  destruct (login_email (email b)) as [e|ee],
    (login_password (password b)) as [pw|ep];
    cbn; destruct p as [pe pp]; cbn;
    (split; [intros [= <- <-] || intros [=] | intros (? & ?)]);
    try done; try congruence.
Qed.

Lemma optional_Valid f rules v out :
  optional f rules v = Valid out <->
  out = v /\ forall s, v = Some s -> Forall (fun r => r.2 s = true) rules.
Proof.
  destruct v as [s|]; cbn [optional].
  - destruct (chain f rules s) as [s'|e] eqn:Hchain.
    + apply chain_Valid in Hchain as [-> Hrules]. split.
      * intros [= <-]. split; [done |]. by intros ? [= <-].
      * by intros [-> _].
    + split; [done |]. intros [_ Hrules].
      specialize (Hrules s eq_refl).
      assert (chain f rules s = Valid s) as Hok by by apply chain_Valid.
      congruence.
  - split.
    + intros [= <-]. split; [done |]. by intros ? [=].
    + by intros [-> _].
Qed.

Lemma unique_true st e :
  unique st e = true <-> first_where_email e st = None.
Proof. unfold unique. by destruct (first_where_email e st). Qed.

Lemma isEmail_length s : isEmail s = true -> (String.length s <= 254)%nat.
Proof.
  unfold isEmail. destruct (Nat.ltb_spec 254 (String.length s)); [done | lia].
Qed.

End ValidatorFacts.

Section ValidatorClaims.
Context {syntax : AddressSyntax}.

(** C8.  The two validators do not bound the password alike.  On a body
    whose name and email pass, the registration validator accepts exactly
    when a password of 8 to 512 characters is sent; on a body whose email
    passes, the login validator accepts exactly when a password of 8 to 32
    characters is sent.  Hence a body that registration has accepted with
    a password of 33 to 512 characters is refused when it is sent to
    login, the report being [maxLength] on [password]; and such bodies
    exist: registration accepts every password of that length next to a
    well formed email that is not in the table. *)
Theorem password_bounds_differ :
  (forall st b e,
     (forall n, name b = Some n -> (3 <= String.length n <= 64)%nat) ->
     email b = Some e -> isEmail e = true -> first_where_email e st = None ->
     ((exists p, registerValidator st b = inr p) <->
      (exists pw, password b = Some pw /\
                  (8 <= String.length pw <= 512)%nat))) /\
  (forall b e,
     email b = Some e -> isEmail e = true ->
     ((exists q, loginValidator b = inr q) <->
      (exists pw, password b = Some pw /\
                  (8 <= String.length pw <= 32)%nat))) /\
  (forall st b p,
     registerValidator st b = inr p ->
     (33 <= String.length (r_password p) <= 512)%nat ->
     password b = Some (r_password p) /\
     loginValidator b = inl [{| field := "password"; rule := "maxLength" |}]) /\
  (forall st e pw,
     isEmail e = true -> first_where_email e st = None ->
     (33 <= String.length pw <= 512)%nat ->
     registerValidator st
       {| name := None; email := Some e; password := Some pw |} =
       inr {| r_name := None; r_email := e; r_password := pw |}).
Proof.
  assert (Hreg : forall st b p,
    registerValidator st b = inr p <->
    (r_name p = name b /\
     forall n, name b = Some n -> (3 <= String.length n <= 64)%nat) /\
    (email b = Some (r_email p) /\
     isEmail (r_email p) = true /\ first_where_email (r_email p) st = None) /\
    (password b = Some (r_password p) /\
     (8 <= String.length (r_password p) <= 512)%nat)).
  { intros st b p. rewrite registerValidator_inr.
    unfold register_name, register_email, register_password.
    rewrite optional_Valid, !required_Valid, within_bounds.
    rewrite !Forall_cons, Forall_nil. cbn [snd]. rewrite unique_true.
    setoid_rewrite within_bounds. tauto. }
  assert (Hlog : forall b q,
    loginValidator b = inr q <->
    (email b = Some (l_email q) /\ isEmail (l_email q) = true) /\
    (password b = Some (l_password q) /\
     (8 <= String.length (l_password q) <= 32)%nat)).
  { intros b q. rewrite loginValidator_inr.
    unfold login_email, login_password.
    rewrite !required_Valid, within_bounds.
    rewrite !Forall_cons, Forall_nil. cbn [snd]. tauto. }
  split; [| split; [| split]].
  - intros st b e Hname He Hsyntax Hfresh. split.
    + intros [p (_ & _ & Hp)%Hreg]. by exists (r_password p).
    + intros (pw & Hpw & Hlen).
      exists {| r_name := name b; r_email := e; r_password := pw |}.
      apply Hreg. cbn. done.
  - intros b e He Hsyntax. split.
    + intros [q (_ & Hq)%Hlog]. by exists (l_password q).
    + intros (pw & Hpw & Hlen).
      exists {| l_email := e; l_password := pw |}.
      apply Hlog. cbn. done.
  - intros st b p ((_ & _) & (He & Hsyntax & _) & (Hpw & _))%Hreg Hlen.
    split; [done |].
    unfold loginValidator, login_email, login_password, required.
    rewrite He, Hpw. cbn [chain]. rewrite Hsyntax.
    replace (minLength 8 (r_password p)) with true
      by (symmetry; apply Nat.leb_le; lia).
    replace (maxLength 32 (r_password p)) with false
      by (symmetry; apply Nat.leb_gt; lia).
    done.
  - intros st e pw Hsyntax Hfresh Hlen. apply Hreg. cbn.
    repeat split; try done; lia.
Qed.

(** C9.  An email that the registration validator lets through is the one
    that was sent and has at most 254 characters: the bound of the column
    holds before a row is written. *)
Theorem register_email_bounded st b p :
  registerValidator st b = inr p ->
  email b = Some (r_email p) /\ (String.length (r_email p) <= 254)%nat.
Proof.
  intros Hok. apply registerValidator_inr in Hok as (_ & Hemail & _).
  unfold register_email in Hemail.
  apply required_Valid in Hemail as [Hsent Hrules].
  split; [done |].
  apply Forall_cons in Hrules as [Hsyntax _]. by apply isEmail_length.
Qed.

End ValidatorClaims.

(** ** Login *)

Section LoginClaims.
Context {hasher : Hash} {syntax : AddressSyntax}.

(** Past validation, [login] is [verifyCredentials] and then the gates. *)
Lemma login_verified env st b p u :
  loginValidator b = inr p ->
  first_where_email (l_email p) st = Some u ->
  hash_verify (User.password u) (l_password p) = true ->
  login env st b =
    if String.eqb (User.status u) "disable" then (Sent AccountDisabled, st)
    else if truthy (User.deletedAt u) then (Sent AccountNotFound, st)
    else (Sent (ok (VObj (("token", toJSON (accessTokens_create env st u).1)
                            :: serialize u))),
          (accessTokens_create env st u).2).
Proof.
  intros Hvalid Hfound Hmatch. unfold login, verifyCredentials.
  by rewrite Hvalid, Hfound, Hmatch.
Qed.

Lemma serialize_without_password u :
  "password" ∉ map fst (serialize u).
Proof.
  cbn. rewrite !not_elem_of_cons. repeat split; try done.
  apply not_elem_of_nil.
Qed.

(** C1.  A login that passes validation, with an email that exists and a
    password that does not match it, fails with InvalidCredentials (status
    400), whatever the status and the [deletedAt] of the account are: the
    credentials are checked before the two gates, so the answer is neither
    AccountDisabled nor AccountNotFound.  The store is left as it was. *)
Theorem login_wrong_password env st b p u :
  loginValidator b = inr p ->
  first_where_email (l_email p) st = Some u ->
  hash_verify (User.password u) (l_password p) = false ->
  login env st b = (InvalidCredentials, st) /\
  http_status InvalidCredentials = 400%Z /\
  InvalidCredentials <> Sent AccountDisabled /\
  InvalidCredentials <> Sent AccountNotFound.
Proof.
  intros Hvalid Hfound Hmatch. repeat split; try done.
  unfold login, verifyCredentials. by rewrite Hvalid, Hfound, Hmatch.
Qed.

(** C2.  A login that passes validation, with the right credentials of a
    user whose status is ["disable"], fails with AccountDisabled (status
    403), not with InvalidCredentials, and issues no token: the store is
    left as it was. *)
Theorem login_disabled env st b p u :
  loginValidator b = inr p ->
  first_where_email (l_email p) st = Some u ->
  hash_verify (User.password u) (l_password p) = true ->
  User.status u = "disable" ->
  login env st b = (Sent AccountDisabled, st) /\
  http_status (Sent AccountDisabled) = 403%Z /\
  Sent AccountDisabled <> InvalidCredentials.
Proof.
  intros Hvalid Hfound Hmatch Hstatus. repeat split; try done.
  rewrite (login_verified env st b p u) by done. by rewrite Hstatus.
Qed.

(** C3, as amended.  A login that passes validation, with the right
    credentials of a user whose [deletedAt] is set and whose status is not
    ["disable"] (so also when it is ["active"]), fails with
    AccountNotFound (status 403) and issues no token: the store is left as
    it was. *)
Theorem login_soft_deleted env st b p u :
  loginValidator b = inr p ->
  first_where_email (l_email p) st = Some u ->
  hash_verify (User.password u) (l_password p) = true ->
  User.status u <> "disable" ->
  User.deletedAt u <> None ->
  login env st b = (Sent AccountNotFound, st) /\
  http_status (Sent AccountNotFound) = 403%Z.
Proof.
  intros Hvalid Hfound Hmatch Hstatus Hdeleted. split; [| done].
  rewrite (login_verified env st b p u) by done.
  apply String.eqb_neq in Hstatus. rewrite Hstatus.
  by destruct (User.deletedAt u).
Qed.

(** C4.  A login that passes validation, with the right credentials of a
    user that is neither disabled nor soft-deleted, mints a token bound to
    that user, appended to the token store under the next identifier, and
    answers 200 with a non-empty token string next to the serialized user;
    no field of the answer is the password. *)
Theorem login_success env st b p u :
  loginValidator b = inr p ->
  first_where_email (l_email p) st = Some u ->
  hash_verify (User.password u) (l_password p) = true ->
  User.status u <> "disable" ->
  User.deletedAt u = None ->
  exists token r st',
    login env st b = (Sent r, st') /\
    access_tokens st' = (access_tokens st ++ [token])%list /\
    AccessToken.tokenableId token = User.id u /\
    AccessToken.identifier token = access_tokens_seq st /\
    http_status (Sent r) = 200%Z /\
    body r = VObj (("token", VObj [("type", VStr "bearer");
                                   ("token", VStr (value token))])
                     :: serialize u) /\
    value token <> "" /\
    "password" ∉ keys (body r).
Proof.
  intros Hvalid Hfound Hmatch Hstatus Hdeleted.
  rewrite (login_verified env st b p u) by done.
  apply String.eqb_neq in Hstatus. rewrite Hstatus, Hdeleted. cbn [truthy].
  eexists _, _, _. split; [reflexivity |].
  repeat split; try done.
  cbn [body ok keys map fst]. apply not_elem_of_cons.
  split; [done | apply serialize_without_password].
Qed.

(** ** Logout *)

Lemma filter_all {A} (P : A -> Prop) `{!forall x, Decision (P x)} (l : list A) :
  (forall x, x ∈ l -> P x) -> filter P l = l.
Proof.
  induction l as [|x l IH]; intros Hall; [done |].
  rewrite filter_cons_True by (apply Hall; left).
  f_equal. apply IH. intros y Hy. apply Hall. by right.
Qed.



(** C10.  Neither [login] nor [logout] touches the [users] table, on any
    path: the rows and their sequence are after the call what they were
    before it.  Only the token store may differ. *)
Theorem login_logout_keep_users :
  (forall env st b,
     users (login env st b).2 = users st /\
     users_seq (login env st b).2 = users_seq st) /\
  (forall auth st,
     users (logout auth st).2 = users st /\
     users_seq (logout auth st).2 = users_seq st).
Proof.
  split.
  - intros env st b. unfold login.
    destruct (loginValidator b) as [messages|p]; [done |].
    destruct (verifyCredentials st (l_email p) (l_password p)) as [e|u];
      [done |].
    destruct (String.eqb (User.status u) "disable"); [done |].
    by destruct (truthy (User.deletedAt u)).
  - intros [a|] st; unfold logout; cbn; [| done].
    by destruct (currentAccessToken a).
Qed.

End LoginClaims.

(** ** Registration *)

Section RegisterClaims.
Context {hasher : Hash} {syntax : AddressSyntax}.

Lemma unique_taken st e u :
  first_where_email e st = Some u -> unique st e = false.
Proof. intros Hfound. unfold unique. by rewrite Hfound. Qed.

Lemma unique_fresh st e :
  unique st e = true -> first_where_email e st = None.
Proof. unfold unique. by destruct (first_where_email e st). Qed.

(** The email rules on an address that is in the table: one of the two
    fails. *)
Lemma register_email_taken st e u :
  first_where_email e st = Some u ->
  exists r,
    register_email st (Some e) = Invalid {| field := "email"; rule := r |} /\
    (isEmail e = true -> r = "database.unique").
Proof.
  intros Hfound. unfold register_email, required. cbn [chain].
  rewrite (unique_taken st e u Hfound).
  destruct (isEmail e); eexists; split; done.
Qed.

(** A row appended to the table is the first of its email when no row had
    that email. *)
Lemma first_where_email_appended st st' u :
  users st' = (users st ++ [u])%list ->
  first_where_email (User.email u) st = None ->
  first_where_email (User.email u) st' = Some u.
Proof.
  unfold first_where_email. intros ->.
  induction (users st) as [|v rows IH]; cbn.
  - by rewrite String.eqb_refl.
  - destruct (String.eqb (User.email v) (User.email u)); [done | apply IH].
Qed.

(** C5, as amended.  A registration with an email that a user already has
    fails and leaves the store as it was, so that no user is created and
    none is changed.  The request is refused by the validator, with a
    ValidationError (status 422) whose report names the rule
    [database.unique] on [email] when the address is well formed.
    DuplicateEmail (status 409) is the answer of the lookup of the
    controller itself, for a payload past validation whose email is in the
    table; there too the store is left as it was. *)
Theorem register_existing_email env st e u :
  first_where_email e st = Some u ->
  (forall b, email b = Some e ->
     exists messages,
       register env st b = (ValidationError messages, st) /\
       messages <> [] /\
       http_status (ValidationError messages) = 422%Z /\
       (isEmail e = true ->
        {| field := "email"; rule := "database.unique" |} ∈ messages)) /\
  (forall payload, r_email payload = e ->
     register_payload env st payload = (Sent DuplicateEmail, st) /\
     http_status (Sent DuplicateEmail) = 409%Z).
Proof.
  intros Hfound. split.
  - intros b Hemail.
    destruct (register_email_taken st e u Hfound) as (r & Hrule & Hunique).
    unfold register, registerValidator. rewrite Hemail, Hrule.
    destruct (register_name (name b)) as [n|en],
      (register_password (password b)) as [pw|ep];
      cbn; eexists; (split; [reflexivity |]);
      (split; [done |]); (split; [done |]);
      intros ->%Hunique; rewrite ?elem_of_cons; auto.
  - intros payload <-. split; [| done].
    unfold register_payload. by rewrite Hfound.
Qed.


End RegisterClaims.

(** ** The claims on the sample store *)

Section OnSample.
Import Sample.

(** Dave is disabled and soft-deleted; the password is not his. *)
Lemma login_wrong_password_witness :
  User.status dave = "disable" /\
  User.deletedAt dave <> None /\
  login (hasher := toy_hash) (syntax := toy_syntax) env0 st0
    (credentials "d@x.com" "longenough5") = (InvalidCredentials, st0).
Proof.
  split; [reflexivity |]. split; [discriminate |].
  apply (login_wrong_password (hasher := toy_hash) (syntax := toy_syntax)
    env0 st0 (credentials "d@x.com" "longenough5")
    {| l_email := "d@x.com"; l_password := "longenough5" |} dave);
    reflexivity.
Defined.

Lemma login_disabled_witness :
  login (hasher := toy_hash) (syntax := toy_syntax) env0 st0
    (credentials "b@x.com" "longenough2") = (Sent AccountDisabled, st0).
Proof.
  apply (login_disabled (hasher := toy_hash) (syntax := toy_syntax)
    env0 st0 (credentials "b@x.com" "longenough2")
    {| l_email := "b@x.com"; l_password := "longenough2" |} bob);
    reflexivity.
Defined.

(** Dave's credentials are right and his [deletedAt] is set, but his
    status is ["disable"]: the first gate answers AccountDisabled, where
    C3 as it was stated expects AccountNotFound. *)
Lemma login_deleted_disabled_counterexample :
  loginValidator (syntax := toy_syntax) (credentials "d@x.com" "longenough4") =
    inr {| l_email := "d@x.com"; l_password := "longenough4" |} /\
  first_where_email "d@x.com" st0 = Some dave /\
  hash_verify (Hash := toy_hash) (User.password dave) "longenough4" = true /\
  User.deletedAt dave <> None /\
  (login (hasher := toy_hash) (syntax := toy_syntax) env0 st0
     (credentials "d@x.com" "longenough4")).1 = Sent AccountDisabled /\
  (login (hasher := toy_hash) (syntax := toy_syntax) env0 st0
     (credentials "d@x.com" "longenough4")).1 <> Sent AccountNotFound.
Proof.
  repeat split; try reflexivity; discriminate.
Qed.

Lemma login_soft_deleted_witness :
  User.status carol = "active" /\
  login (hasher := toy_hash) (syntax := toy_syntax) env0 st0
    (credentials "c@x.com" "longenough3") = (Sent AccountNotFound, st0).
Proof.
  split; [reflexivity |].
  apply (login_soft_deleted (hasher := toy_hash) (syntax := toy_syntax)
    env0 st0 (credentials "c@x.com" "longenough3")
    {| l_email := "c@x.com"; l_password := "longenough3" |} carol);
    try reflexivity; discriminate.
Defined.

Lemma login_success_witness :
  exists token r st',
    login (hasher := toy_hash) (syntax := toy_syntax) env0 st0
      (credentials "a@x.com" "longenough1") = (Sent r, st') /\
    access_tokens st' = [token1; token2; token] /\
    AccessToken.tokenableId token = 1%positive /\
    AccessToken.identifier token = 3%positive /\
    http_status (Sent r) = 200%Z /\
    body r = VObj (("token", VObj [("type", VStr "bearer");
                                   ("token", VStr (value token))])
                     :: serialize alice) /\
    value token <> "" /\
    "password" ∉ keys (body r).
Proof.
  apply (login_success (hasher := toy_hash) (syntax := toy_syntax)
    env0 st0 (credentials "a@x.com" "longenough1")
    {| l_email := "a@x.com"; l_password := "longenough1" |} alice);
    try reflexivity; discriminate.
Defined.

(** A registration with Alice's address is refused by the validator: the
    answer is a ValidationError, where C5 as it was stated expects
    DuplicateEmail. *)
Lemma register_existing_email_counterexample :
  first_where_email "a@x.com" st0 = Some alice /\
  register (hasher := toy_hash) (syntax := toy_syntax) env0 st0
    (credentials "a@x.com" "longenough9") =
    (ValidationError [{| field := "email"; rule := "database.unique" |}], st0) /\
  (register (hasher := toy_hash) (syntax := toy_syntax) env0 st0
     (credentials "a@x.com" "longenough9")).1 <> Sent DuplicateEmail /\
  http_status (register (hasher := toy_hash) (syntax := toy_syntax) env0 st0
     (credentials "a@x.com" "longenough9")).1 <> 409%Z.
Proof.
  repeat split; try reflexivity; discriminate.
Qed.

Lemma register_existing_email_witness :
  (exists messages,
     register (hasher := toy_hash) (syntax := toy_syntax) env0 st0
       (credentials "a@x.com" "longenough9") = (ValidationError messages, st0) /\
     messages <> [] /\
     http_status (ValidationError messages) = 422%Z /\
     (isEmail (syntax := toy_syntax) "a@x.com" = true ->
      {| field := "email"; rule := "database.unique" |} ∈ messages)) /\
  register_payload (hasher := toy_hash) env0 st0
    {| r_name := None; r_email := "a@x.com"; r_password := "longenough9" |} =
    (Sent DuplicateEmail, st0).
Proof.
  destruct (register_existing_email (hasher := toy_hash)
    (syntax := toy_syntax) env0 st0 "a@x.com" alice eq_refl) as [Hreq Hpay].
  split.
  - apply Hreq. reflexivity.
  - apply Hpay. reflexivity.
Defined.



Lemma password_bounds_differ_witness :
  registerValidator (syntax := Sample.toy_syntax) Sample.st0
    (Sample.credentials "e@x.com" Sample.long_password) =
    inr {| r_name := None; r_email := "e@x.com";
           r_password := Sample.long_password |} /\
  loginValidator (syntax := Sample.toy_syntax)
    (Sample.credentials "e@x.com" Sample.long_password) =
    inl [{| field := "password"; rule := "maxLength" |}].
Proof.
  destruct (password_bounds_differ (syntax := Sample.toy_syntax))
    as (_ & _ & Hrefused & Haccepted).
  assert (registerValidator (syntax := Sample.toy_syntax) Sample.st0
            (Sample.credentials "e@x.com" Sample.long_password) =
          inr {| r_name := None; r_email := "e@x.com";
                 r_password := Sample.long_password |}) as Hreg.
  { apply Haccepted; [reflexivity | reflexivity | cbn; lia]. }
  split; [exact Hreg |].
  apply (Hrefused Sample.st0 _ _ Hreg). cbn. lia.
Defined.

Lemma register_email_bounded_witness :
  email (Sample.credentials "e@x.com" "longenough5") = Some "e@x.com" /\
  (String.length "e@x.com" <= 254)%nat.
Proof.
  exact (register_email_bounded (syntax := Sample.toy_syntax) Sample.st0
    (Sample.credentials "e@x.com" "longenough5")
    {| r_name := None; r_email := "e@x.com"; r_password := "longenough5" |}
    eq_refl).
Defined.

End OnSample.

(** * Further properties *)

(** ** The validators, field by field *)

Section ValidatorReports.
Context {syntax : AddressSyntax}.

Lemma chain_field f rules s e :
  chain f rules s = Invalid e -> field e = f.
Proof.
  induction rules as [|[r check] rules IH]; cbn [chain]; [done |].
  destruct (check s); [done |]. by intros [= <-].
Qed.

Lemma required_field f rules v e :
  required f rules v = Invalid e -> field e = f.
Proof.
  destruct v as [s|]; cbn [required]; [apply chain_field |].
  by intros [= <-].
Qed.

Lemma optional_field f rules v e :
  optional f rules v = Invalid e -> field e = f.
Proof.
  destruct v as [s|]; cbn [optional]; [| done].
  destruct (chain f rules s) as [s'|e'] eqn:Hchain; [done |].
  intros [= <-]. by apply chain_field in Hchain.
Qed.

(** X1.  The registration validator accepts a body exactly when the name,
    if one is sent, has 3 to 64 characters, an email is sent that is well
    formed and is the email of no row, and a password of 8 to 512
    characters is sent.  The payload is then the body as it was sent. *)
Theorem registerValidator_accepts st b p :
  registerValidator st b = inr p <->
  r_name p = name b /\
  (forall n, name b = Some n -> (3 <= String.length n <= 64)%nat) /\
  email b = Some (r_email p) /\
  isEmail (r_email p) = true /\
  first_where_email (r_email p) st = None /\
  password b = Some (r_password p) /\
  (8 <= String.length (r_password p) <= 512)%nat.
Proof.
  rewrite registerValidator_inr.
  unfold register_name, register_email, register_password.
  rewrite optional_Valid, !required_Valid, within_bounds.
  rewrite !Forall_cons, Forall_nil. cbn [snd].
  rewrite unique_true.
  setoid_rewrite within_bounds. tauto.
Qed.

(** X2.  The login validator accepts a body exactly when a well formed
    email and a password of 8 to 32 characters are sent, whatever the
    name; the payload is then these two as they were sent. *)
Theorem loginValidator_accepts b p :
  loginValidator b = inr p <->
  email b = Some (l_email p) /\
  isEmail (l_email p) = true /\
  password b = Some (l_password p) /\
  (8 <= String.length (l_password p) <= 32)%nat.
Proof.
  rewrite loginValidator_inr. unfold login_email, login_password.
  rewrite !required_Valid, within_bounds.
  rewrite !Forall_cons, Forall_nil. cbn [snd]. tauto.
Qed.

Ltac in_schema_order :=
  repeat first [ apply sublist_nil | apply sublist_skip | apply sublist_cons ].

(** X3.  A report of either validator is not empty and names each field
    at most once, in the order of the schema: [name], [email],
    [password] for a registration, [email], [password] for a login. *)
Theorem reports_follow_schema st b :
  (forall ms, registerValidator st b = inl ms ->
     ms <> [] /\
     map field ms `sublist_of` ["name"; "email"; "password"]) /\
  (forall ms, loginValidator b = inl ms ->
     ms <> [] /\
     map field ms `sublist_of` ["email"; "password"]).
Proof.
  split; intros ms.
  - unfold registerValidator.
    destruct (register_name (name b)) as [n|en] eqn:Hn,
      (register_email st (email b)) as [e|ee] eqn:He,
      (register_password (password b)) as [pw|ep] eqn:Hp;
      intros [= <-]; (split; [done |]); cbn [report app map];
      try (apply optional_field in Hn; rewrite Hn);
      try (apply required_field in He; rewrite He);
      try (apply required_field in Hp; rewrite Hp);
      in_schema_order.
  - unfold loginValidator.
    destruct (login_email (email b)) as [e|ee] eqn:He,
      (login_password (password b)) as [pw|ep] eqn:Hp;
      intros [= <-]; (split; [done |]); cbn [report app map];
      try (apply required_field in He; rewrite He);
      try (apply required_field in Hp; rewrite Hp);
      in_schema_order.
Qed.

(** X4.  A body without an email, or without a password, is refused by
    both validators, and the report says [required] for that field.  A
    body without a name is never reported for its name. *)
Theorem missing_fields_are_required st b :
  (email b = None ->
     (exists ms, registerValidator st b = inl ms /\
        {| field := "email"; rule := "required" |} ∈ ms) /\
     (exists ms, loginValidator b = inl ms /\
        {| field := "email"; rule := "required" |} ∈ ms)) /\
  (password b = None ->
     (exists ms, registerValidator st b = inl ms /\
        {| field := "password"; rule := "required" |} ∈ ms) /\
     (exists ms, loginValidator b = inl ms /\
        {| field := "password"; rule := "required" |} ∈ ms)) /\
  (name b = None ->
     forall ms, registerValidator st b = inl ms ->
       Forall (fun e => field e <> "name") ms).
Proof.
  split; [| split].
  - intros Hnone. unfold registerValidator, loginValidator.
    unfold register_email, login_email. rewrite Hnone. cbn [required].
    split.
    + destruct (register_name (name b)), (register_password (password b));
        cbn [report app]; eexists; (split; [reflexivity |]);
        rewrite ?elem_of_cons; auto.
    + destruct (login_password (password b));
        cbn [report app]; eexists; (split; [reflexivity |]);
        rewrite ?elem_of_cons; auto.
  - intros Hnone. unfold registerValidator, loginValidator.
    unfold register_password, login_password. rewrite Hnone. cbn [required].
    split.
    + destruct (register_name (name b)), (register_email st (email b));
        cbn [report app]; eexists; (split; [reflexivity |]);
        rewrite ?elem_of_cons; auto.
    + destruct (login_email (email b));
        cbn [report app]; eexists; (split; [reflexivity |]);
        rewrite ?elem_of_cons; auto.
  - intros Hnone ms. unfold registerValidator, register_name.
    rewrite Hnone. cbn [optional].
    destruct (register_email st (email b)) as [e|ee] eqn:He,
      (register_password (password b)) as [pw|ep] eqn:Hp;
      intros [= <-]; cbn [report app];
      try (apply required_field in He);
      try (apply required_field in Hp);
      repeat constructor; congruence.
Qed.

(** The login validator on a body the registration validator accepts. *)
Lemma loginValidator_of_registered st b p q :
  registerValidator st b = inr p ->
  loginValidator b = inr q <->
  l_email q = r_email p /\ l_password q = r_password p /\
  (String.length (r_password p) <= 32)%nat.
Proof.
  intros Hreg. apply registerValidator_inr in Hreg as (_ & He & Hp).
  unfold register_email in He. unfold register_password in Hp.
  apply required_Valid in He as [He Hrules].
  apply required_Valid in Hp as [Hp Hlen%within_bounds].
  apply Forall_cons in Hrules as [Hsyntax _]. cbn [snd] in Hsyntax.
  rewrite loginValidator_inr. unfold login_email, login_password.
  rewrite !required_Valid, within_bounds, He, Hp.
  rewrite Forall_cons, Forall_nil. cbn [snd]. split.
  - intros [[[= <-] _] [[= <-] ?]]. repeat split; try done; lia.
  - intros (-> & -> & ?). repeat split; try done; lia.
Qed.

(** X5.  A body that the registration validator accepts is accepted by
    the login validator exactly when its password has at most 32
    characters, and then with the same email and the same password. *)
Theorem registered_body_at_login st b p :
  registerValidator st b = inr p ->
  ((exists q, loginValidator b = inr q) <->
     (String.length (r_password p) <= 32)%nat) /\
  (forall q, loginValidator b = inr q ->
     l_email q = r_email p /\ l_password q = r_password p).
Proof.
  intros Hreg.
  pose proof (fun q => loginValidator_of_registered st b p q Hreg) as Hq.
  split; [split |].
  - intros [q Hlogin]. by apply Hq in Hlogin as (_ & _ & ?).
  - intros Hshort.
    exists {| l_email := r_email p; l_password := r_password p |}.
    by apply Hq.
  - intros q Hlogin. by apply Hq in Hlogin as (? & ? & _).
Qed.

(** X6.  An email that is not well formed is reported under the rule
    [email] and the table is not asked about it: the registration
    validator gives the same result on every store. *)
Theorem malformed_email_not_looked_up st st' b e :
  email b = Some e ->
  isEmail e = false ->
  registerValidator st b = registerValidator st' b /\
  exists ms, registerValidator st b = inl ms /\
    {| field := "email"; rule := "email" |} ∈ ms /\
    {| field := "email"; rule := "database.unique" |} ∉ ms.
Proof.
  intros He Hbad.
  assert (Hrule : forall s, register_email s (email b) =
            Invalid {| field := "email"; rule := "email" |}).
  { intros s. unfold register_email. rewrite He. cbn [required chain].
    by rewrite Hbad. }
  unfold registerValidator. rewrite !Hrule. split; [done |].
  destruct (register_name (name b)) as [n|en] eqn:Hn,
    (register_password (password b)) as [pw|ep] eqn:Hp;
    cbn [report app]; eexists; (split; [reflexivity |]);
    try (apply optional_field in Hn);
    try (apply required_field in Hp);
    (split; [rewrite ?elem_of_cons; auto |]);
    rewrite ?not_elem_of_cons; repeat split;
    try apply not_elem_of_nil; try discriminate;
    intros Heq; rewrite <- Heq in *; discriminate.
Qed.

End ValidatorReports.

(** ** The tables *)

Section TableFacts.

Lemma first_where_email_None e st :
  first_where_email e st = None <-> e ∉ map User.email (users st).
Proof.
  unfold first_where_email.
  induction (users st) as [|v rows IH]; cbn [List.find map].
  - split; [intros _; apply not_elem_of_nil | done].
  - destruct (String.eqb_spec (User.email v) e) as [<- | Hne].
    + split; [done |]. intros Hnot. exfalso. apply Hnot. by left.
    + rewrite IH, not_elem_of_cons. split; [| tauto].
      intros ?. split; [congruence | done].
Qed.

Lemma NoDup_appended {A B} (f : A -> B) (l : list A) (x : A) :
  NoDup (map f l) -> f x ∉ map f l -> NoDup (map f (l ++ [x])).
Proof.
  intros Hdup Hfresh. rewrite map_app. apply NoDup_app.
  split; [done |]. split; [| apply NoDup_singleton].
  intros y Hy ->%list_elem_of_singleton. by apply Hfresh.
Qed.

Lemma sequence_not_handed_out {A} (key : A -> positive) (l : list A) seq :
  Forall (fun x => (key x < seq)%positive) l -> seq ∉ map key l.
Proof.
  induction 1 as [|x l Hx _ IH]; cbn [map]; [apply not_elem_of_nil |].
  apply not_elem_of_cons. split; [lia | done].
Qed.

Lemma below_next {A} (key : A -> positive) (l : list A) seq :
  Forall (fun x => (key x < seq)%positive) l ->
  Forall (fun x => (key x < Pos.succ seq)%positive) l.
Proof. intros Hl. eapply Forall_impl; [exact Hl |]. intros x. cbn. lia. Qed.

(** X7.  When no two rows share an email, the lookup by email finds each
    row by its own email: the duplicate check and the login address that
    row and no other. *)
Theorem lookup_finds_row st u :
  NoDup (map User.email (users st)) ->
  u ∈ users st ->
  first_where_email (User.email u) st = Some u.
Proof.
  unfold first_where_email.
  induction (users st) as [|v rows IH]; cbn [List.find map];
    intros Hdup Hin.
  - by apply elem_of_nil in Hin.
  - apply NoDup_cons in Hdup as [Hfresh Hdup].
    apply elem_of_cons in Hin as [-> | Hin].
    + by rewrite String.eqb_refl.
    + destruct (String.eqb_spec (User.email v) (User.email u)) as [Heq | _];
        [| by apply IH].
      exfalso. apply Hfresh. rewrite Heq.
      change (map User.email rows) with (User.email <$> rows).
      by apply list_elem_of_fmap_2.
Qed.

End TableFacts.

(** ** The handlers, path by path *)

Section HandlerFacts.
Context {hasher : Hash} {syntax : AddressSyntax}.

(** What [register] does with a body that passes validation. *)
Lemma register_accepted env st b p :
  registerValidator st b = inr p ->
  exists u r,
    register env st b =
      (Sent r,
       {| users := (users st ++ [u])%list;
          users_seq := Pos.succ (users_seq st);
          access_tokens := access_tokens st;
          access_tokens_seq := access_tokens_seq st |}) /\
    status r = 201%Z /\
    User.id u = users_seq st /\
    User.email u = r_email p /\
    User.password u = hashed env (r_password p) /\
    User.status u = "active" /\
    User.deletedAt u = None /\
    first_where_email (r_email p) st = None.
Proof.
  intros Hvalid.
  assert (Hfresh : first_where_email (r_email p) st = None).
  { apply registerValidator_inr in Hvalid as (_ & Hemail & _).
    unfold register_email in Hemail.
    apply required_Valid in Hemail as [_ Hrules].
    apply Forall_cons in Hrules as [_ Hrules].
    apply Forall_cons in Hrules as [Hunique _]. by apply unique_fresh. }
  unfold register, register_payload, create. rewrite Hvalid, Hfresh.
  eexists _, _. split; [reflexivity |]. done.
Qed.

(** What [register] does with a body whose email is in the table. *)
Lemma register_taken env st b e u :
  email b = Some e ->
  first_where_email e st = Some u ->
  exists ms, register env st b = (ValidationError ms, st) /\ ms <> [].
Proof.
  intros Hemail Hfound.
  destruct (register_email_taken st e u Hfound) as (r & Hrule & _).
  unfold register, registerValidator. rewrite Hemail, Hrule.
  destruct (register_name (name b)), (register_password (password b));
    cbn; eexists; (split; [reflexivity | done]).
Qed.


(** X9.  [login] issues a token exactly when it answers 200.  Every other
    answer is a ValidationError, InvalidCredentials, AccountDisabled or
    AccountNotFound, and leaves the whole store as it was; with a 200 one
    token is appended, under the next identifier of the sequence. *)
Theorem login_outcomes env st b :
  ((login env st b).2 = st /\
   ((exists ms, (login env st b).1 = ValidationError ms) \/
    (login env st b).1 = InvalidCredentials \/
    (login env st b).1 = Sent AccountDisabled \/
    (login env st b).1 = Sent AccountNotFound) /\
   http_status (login env st b).1 <> 200%Z) \/
  (http_status (login env st b).1 = 200%Z /\
   exists t,
     access_tokens (login env st b).2 = (access_tokens st ++ [t])%list /\
     AccessToken.identifier t = access_tokens_seq st /\
     access_tokens_seq (login env st b).2 = Pos.succ (access_tokens_seq st)).
Proof.
  unfold login, verifyCredentials.
  destruct (loginValidator b) as [ms|p]; [left; eauto 6 |].
  destruct (first_where_email (l_email p) st) as [u|];
    [| left; cbn; eauto 6].
  destruct (hash_verify (User.password u) (l_password p));
    [| left; cbn; eauto 6].
  destruct (String.eqb (User.status u) "disable");
    [left; cbn; eauto 7 |].
  destruct (truthy (User.deletedAt u)); [left; cbn; eauto 7 |].
  right. cbn. split; [done |]. eexists. done.
Qed.

(** X10.  [logout] never adds a token and never moves the sequence: the
    tokens left are tokens there were, in the order they had.  It keeps
    every token that is not the one the request came with: those of other
    users, and those of the same user under another identifier. *)
Theorem logout_spares_other_tokens auth st :
  access_tokens (logout auth st).2 `sublist_of` access_tokens st /\
  access_tokens_seq (logout auth st).2 = access_tokens_seq st /\
  (forall t,
     t ∈ access_tokens st ->
     (forall a, auth = Some a ->
        AccessToken.tokenableId t <> User.id (user a) \/
        currentAccessToken a <> Some (AccessToken.identifier t)) ->
     t ∈ access_tokens (logout auth st).2).
Proof.
  destruct auth as [a|]; unfold logout; cbn; [| done].
  destruct (currentAccessToken a) as [i|] eqn:Hi; cbn; [| done].
  split; [apply sublist_filter |]. split; [done |].
  intros t Hin Hother. apply list_elem_of_filter. split; [| done].
  intros [Hid Huser].
  destruct (Hother a eq_refl) as [Hne | Hne]; [done |].
  apply Hne. by rewrite Hid.
Qed.

End HandlerFacts.

(** ** Invariants and round trips *)

Section Invariants.
Context {hasher : Hash} {syntax : AddressSyntax}.

Lemma login_users env st b :
  users (login env st b).2 = users st /\
  users_seq (login env st b).2 = users_seq st.
Proof.
  unfold login.
  destruct (loginValidator b) as [ms|p]; [done |].
  destruct (verifyCredentials st (l_email p) (l_password p)) as [e|u];
    [done |].
  destruct (String.eqb (User.status u) "disable"); [done |].
  by destruct (truthy (User.deletedAt u)).
Qed.

Lemma logout_users auth st :
  users (logout auth st).2 = users st /\
  users_seq (logout auth st).2 = users_seq st.
Proof.
  destruct auth as [a|]; unfold logout; cbn; [| done].
  by destruct (currentAccessToken a).
Qed.

Lemma users_consistent_same st st' :
  users st' = users st ->
  users_seq st' = users_seq st ->
  users_consistent st -> users_consistent st'.
Proof.
  intros Hu Hs [Hbelow Hids Hemails].
  constructor; rewrite ?Hu, ?Hs; done.
Qed.

(** X11.  The three handlers keep the [users] table as its definition
    wants it: every key below the sequence, no key twice, no email twice.
    [register] is the one that writes; it takes the key from the sequence
    and writes an email only after looking it up. *)
Theorem handlers_keep_users_consistent st :
  users_consistent st ->
  (forall env b, users_consistent (register env st b).2) /\
  (forall env b, users_consistent (login env st b).2) /\
  (forall auth, users_consistent (logout auth st).2).
Proof.
  intros Hst. split; [| split].
  - intros env b.
    destruct (registerValidator st b) as [ms|p] eqn:Hvalid.
    + unfold register. by rewrite Hvalid.
    + destruct (register_accepted env st b p Hvalid)
        as (u & r & -> & _ & Hid & Hemail & _ & _ & _ & Hfresh).
      destruct Hst as [Hbelow Hids Hemails]. cbn [snd].
      constructor; cbn [users users_seq].
      * apply Forall_app. split; [by apply below_next |].
        apply Forall_singleton. lia.
      * apply NoDup_appended; [done |]. rewrite Hid.
        by apply sequence_not_handed_out.
      * apply NoDup_appended; [done |]. rewrite Hemail.
        by apply first_where_email_None.
  - intros env b. destruct (login_users env st b).
    by apply (users_consistent_same st).
  - intros auth. destruct (logout_users auth st).
    by apply (users_consistent_same st).
Qed.

(** X12.  The three handlers keep the token store as its sequence wants
    it: every identifier below the sequence and none twice.  [login]
    takes the identifier of a new token from the sequence; [logout] only
    removes. *)
Theorem handlers_keep_tokens_consistent st :
  tokens_consistent st ->
  (forall env b, tokens_consistent (register env st b).2) /\
  (forall env b, tokens_consistent (login env st b).2) /\
  (forall auth, tokens_consistent (logout auth st).2).
Proof.
  intros [Hbelow Hids]. split; [| split].
  - intros env b.
    destruct (registerValidator st b) as [ms|p] eqn:Hvalid.
    + unfold register. rewrite Hvalid. by constructor.
    + destruct (register_accepted env st b p Hvalid) as (u & r & -> & _).
      by constructor.
  - intros env b. unfold login.
    destruct (loginValidator b) as [ms|p]; [by constructor |].
    destruct (verifyCredentials st (l_email p) (l_password p)) as [e|u];
      [by constructor |].
    destruct (String.eqb (User.status u) "disable"); [by constructor |].
    destruct (truthy (User.deletedAt u)); [by constructor |].
    constructor; cbn.
    + apply Forall_app. split; [by apply below_next |].
      apply Forall_singleton. cbn. lia.
    + apply NoDup_appended; [done |]. cbn.
      by apply sequence_not_handed_out.
  - intros [a|]; unfold logout; cbn; [| by constructor].
    destruct (currentAccessToken a) as [i|]; [| by constructor].
    constructor; cbn.
    + apply Forall_forall. intros t [_ Hin]%list_elem_of_filter.
      by apply (proj1 (Forall_forall _ _) Hbelow).
    + eapply sublist_NoDup; [exact Hids |].
      change (map AccessToken.identifier ?l) with (AccessToken.identifier <$> l).
      apply fmap_sublist, sublist_filter.
Qed.

(** X13.  Login, then logout with the token of that login, gives the
    token store back: on a store whose identifiers are below the
    sequence, the tokens after the two calls are the tokens before them,
    and so are the users. *)
Theorem login_then_logout env st b p u :
  tokens_consistent st ->
  loginValidator b = inr p ->
  first_where_email (l_email p) st = Some u ->
  hash_verify (User.password u) (l_password p) = true ->
  User.status u <> "disable" ->
  User.deletedAt u = None ->
  exists t st' st'',
    login env st b =
      (Sent (ok (VObj (("token", toJSON t) :: serialize u))), st') /\
    logout (Some {| user := u;
                    currentAccessToken := Some (AccessToken.identifier t) |})
      st' = (Sent (ok (VObj [("message", VStr "Logged out")])), st'') /\
    access_tokens st'' = access_tokens st /\
    users st'' = users st.
Proof.
  intros [Hbelow _] Hvalid Hfound Hmatch Hstatus Hdeleted.
  rewrite (login_verified env st b p u) by done.
  apply String.eqb_neq in Hstatus. rewrite Hstatus, Hdeleted. cbn [truthy].
  eexists _, _, _. split; [reflexivity |]. split; [reflexivity |].
  split; [| done]. cbn.
  rewrite filter_app, filter_cons_False, filter_nil, app_nil_r.
  - apply filter_all. intros t Hin [Hid _].
    apply (proj1 (Forall_forall _ _) Hbelow) in Hin. lia.
  - intros Hnot. by apply Hnot.
Qed.

(** X14.  Register, then login with the same body: when the password has
    at most 32 characters and the hashing driver verifies what it has
    made, the login answers 200 with a token bound to the user that was
    just created. *)
Theorem register_then_login env env' st b p :
  registerValidator st b = inr p ->
  (String.length (r_password p) <= 32)%nat ->
  hash_verify (hash_make (random env) (r_password p)) (r_password p) = true ->
  exists t r st'',
    login env' (register env st b).2 b = (Sent r, st'') /\
    status r = 200%Z /\
    access_tokens st'' = (access_tokens st ++ [t])%list /\
    AccessToken.tokenableId t = users_seq st.
Proof.
  intros Hvalid Hshort Hhash.
  destruct (register_accepted env st b p Hvalid)
    as (u & r & -> & _ & Hid & Hemail & Hpassword & Hstatus & Hdeleted & Hfresh).
  cbn [snd].
  set (st' := {| users := (users st ++ [u])%list;
                 users_seq := Pos.succ (users_seq st);
                 access_tokens := access_tokens st;
                 access_tokens_seq := access_tokens_seq st |}).
  assert (Hlogin : loginValidator b =
            inr {| l_email := r_email p; l_password := r_password p |})
    by by apply (loginValidator_of_registered st b p).
  assert (Hfound : first_where_email (r_email p) st' = Some u).
  { rewrite <- Hemail. apply (first_where_email_appended st); [done |].
    by rewrite Hemail. }
  rewrite (login_verified env' st' b _ u Hlogin Hfound)
    by (cbn; by rewrite Hpassword).
  rewrite Hstatus, Hdeleted. cbn.
  eexists _, _, _. split; [reflexivity |]. by rewrite Hid.
Qed.

(** X15.  Register, then register again with the same email: the second
    request is refused by the validator, whatever else it sends, and the
    store is left as the first one made it. *)
Theorem register_twice env env' st b b' p :
  registerValidator st b = inr p ->
  email b' = Some (r_email p) ->
  exists ms,
    register env' (register env st b).2 b' =
      (ValidationError ms, (register env st b).2) /\
    ms <> [] /\
    length (users (register env' (register env st b).2 b').2) =
      S (length (users st)).
Proof.
  intros Hvalid Hsame.
  destruct (register_accepted env st b p Hvalid)
    as (u & r & Hreg & _ & _ & Hemail & _ & _ & _ & Hfresh).
  rewrite Hreg. cbn [snd].
  set (st' := {| users := (users st ++ [u])%list;
                 users_seq := Pos.succ (users_seq st);
                 access_tokens := access_tokens st;
                 access_tokens_seq := access_tokens_seq st |}).
  assert (Hfound : first_where_email (r_email p) st' = Some u).
  { rewrite <- Hemail. apply (first_where_email_appended st); [done |].
    by rewrite Hemail. }
  destruct (register_taken env' st' b' _ u Hsame Hfound) as (ms & -> & Hms).
  exists ms. split; [done |]. split; [done |].
  cbn. rewrite length_app. cbn. lia.
Qed.

End Invariants.

(** ** The migration *)

Section MigrationFacts.
Import Migration.

(** X16.  [down] undoes [up]: on a database without a [users] table, the
    two in a row give the database back.  [up] adds the table under its
    name and leaves every other table alone.  The engine refuses [up] when
    the table is there and [down] when it is not. *)
Theorem down_undoes_up (schema : gmap string (list Column)) :
  (schema !! tableName = None ->
     up schema ≫= down = Some schema /\
     down schema = None /\
     exists schema',
       up schema = Some schema' /\
       schema' !! tableName = Some table /\
       forall other, other <> tableName -> schema' !! other = schema !! other) /\
  (is_Some (schema !! tableName) ->
     up schema = None /\
     exists schema',
       down schema = Some schema' /\
       schema' !! tableName = None /\
       forall other, other <> tableName -> schema' !! other = schema !! other).
Proof.
  split.
  - intros Hfresh. unfold up, down. rewrite Hfresh. cbn.
    rewrite lookup_insert_eq, delete_insert_id by done.
    repeat split. eexists. split; [reflexivity |].
    split; [apply lookup_insert_eq |].
    intros other Hother. by apply lookup_insert_ne.
  - intros [columns Hthere]. unfold up, down. rewrite Hthere.
    split; [done |]. eexists. split; [reflexivity |].
    split; [apply lookup_delete_eq |].
    intros other Hother. by apply lookup_delete_ne.
Qed.

End MigrationFacts.

(** ** More on the handlers *)

Section MoreHandlerFacts.
Context {hasher : Hash} {syntax : AddressSyntax}.

(** What a login that answers 200 has done to the token store. *)
Lemma login_200 env st b :
  http_status (login env st b).1 = 200%Z ->
  exists t,
    access_tokens (login env st b).2 = (access_tokens st ++ [t])%list /\
    AccessToken.identifier t = access_tokens_seq st /\
    access_tokens_seq (login env st b).2 = Pos.succ (access_tokens_seq st).
Proof.
  unfold login, verifyCredentials.
  destruct (loginValidator b) as [ms|p]; [done |].
  destruct (first_where_email (l_email p) st) as [u|]; [| done].
  destruct (hash_verify (User.password u) (l_password p)); [| done].
  destruct (String.eqb (User.status u) "disable"); [done |].
  destruct (truthy (User.deletedAt u)); [done |].
  intros _. cbn. eexists. done.
Qed.

(** X17.  [logout] has three ways out.  When nobody is authenticated
    [getUserOrFail] throws, and when the user has no token attached line
    125 throws a TypeError (status 500); in both the store is left as it
    was.  Otherwise the answer is 200 with the message ['Logged out'] and
    the store is what the deletion of the token leaves.  The 401 of line
    127 is never sent. *)
Theorem logout_outcomes auth st :
  ((auth = None /\
    exists e, logout auth st = (Raised e, st)) \/
   (exists a, auth = Some a /\ currentAccessToken a = None /\
    logout auth st = (Raised TypeError, st) /\
    http_status (logout auth st).1 = 500%Z) \/
   (exists a i r, auth = Some a /\ currentAccessToken a = Some i /\
    (logout auth st).1 = Sent r /\
    status r = 200%Z /\
    body r = VObj [("message", VStr "Logged out")] /\
    (logout auth st).2 = accessTokens_delete (user a) i st)) /\
  (logout auth st).1 <> Sent TokenMissing.
Proof.
  destruct auth as [a|]; [| split; [left; eauto | done]].
  unfold logout. cbn.
  destruct (currentAccessToken a) as [i|] eqn:Hi; cbn.
  - split; [| done]. right. right. by eexists a, i, _.
  - split; [| done]. right. left. by exists a.
Qed.

(** X18.  Two logins in a row that both answer 200 leave two new tokens
    behind the old ones, and their identifiers differ: a session never
    takes the identifier of another. *)
Theorem login_twice_distinct env env' st b b' :
  http_status (login env st b).1 = 200%Z ->
  http_status (login env' (login env st b).2 b').1 = 200%Z ->
  exists t t',
    access_tokens (login env' (login env st b).2 b').2 =
      (access_tokens st ++ [t; t'])%list /\
    AccessToken.identifier t <> AccessToken.identifier t'.
Proof.
  intros (t & Htokens & Hid & Hseq)%login_200
         (t' & Htokens' & Hid' & _)%login_200.
  exists t, t'. split.
  - by rewrite Htokens', Htokens, <- app_assoc.
  - rewrite Hid, Hid', Hseq. lia.
Qed.

(** X19.  The row a registration writes fits the table of the migration,
    provided the digest of the password fits its column: no
    [notNullable()] column is left [null], and no string is longer than
    its column (the validator keeps the name within 64 and the email
    within 254 characters). *)
Theorem registered_row_fits env st b p :
  registerValidator st b = inr p ->
  (String.length (hashed env (r_password p)) <= 255)%nat ->
  exists u,
    users (register env st b).2 = (users st ++ [u])%list /\
    row_fits u.
Proof.
  intros Hvalid Hdigest.
  pose proof Hvalid as (_ & Hemail & _)%registerValidator_inr.
  pose proof Hvalid as (Hname & _)%registerValidator_inr.
  unfold register_email in Hemail.
  apply required_Valid in Hemail as [_ Hrules].
  apply Forall_cons in Hrules as [Hsyntax%isEmail_length _].
  unfold register_name in Hname.
  apply optional_Valid in Hname as [Hsent Hname].
  assert (Hbound : forall s, r_name p = Some s -> (String.length s <= 64)%nat).
  { intros s Hs. rewrite Hsent in Hs. specialize (Hname s Hs).
    apply within_bounds in Hname. lia. }
  clear Hname Hsent.
  assert (Hfresh : first_where_email (r_email p) st = None).
  { by destruct (register_accepted env st b p Hvalid)
      as (? & ? & _ & _ & _ & _ & _ & _ & _ & ?). }
  unfold register, register_payload, create. rewrite Hvalid, Hfresh.
  eexists. split; [reflexivity |].
  unfold row_fits, row_values, Migration.table, fits, Migration.plain.
  cbn [User.id User.name User.email User.password User.status User.isAdmin
       User.created_at User.updated_at User.deletedAt UserModel.nullable].
  destruct (r_name p) as [nm|].
  all: repeat (apply Forall2_cons; split; [split; [reflexivity |] |]);
    try apply Forall2_nil.
  all: cbn; split.
  all: try (intros; discriminate).
  all: intros n s [= <-] [= <-]; cbn; try lia.
  specialize (Hbound _ eq_refl). lia.
Qed.

End MoreHandlerFacts.

(** ** The further properties on the sample store *)

Section OnSampleAgain.
Import Sample.

Lemma st0_users_consistent : users_consistent st0.
Proof.
  constructor; cbn.
  - repeat constructor.
  - apply (bool_decide_unpack _). by vm_compute.
  - apply (bool_decide_unpack _). by vm_compute.
Qed.

Lemma st0_tokens_consistent : tokens_consistent st0.
Proof.
  constructor; cbn.
  - repeat constructor.
  - apply (bool_decide_unpack _). by vm_compute.
Qed.

Lemma registerValidator_accepts_witness :
  registerValidator (syntax := toy_syntax) st0
    (credentials "e@x.com" "longenough5") =
    inr {| r_name := None; r_email := "e@x.com"; r_password := "longenough5" |}.
Proof.
  apply (proj2 (registerValidator_accepts (syntax := toy_syntax) st0
    (credentials "e@x.com" "longenough5")
    {| r_name := None; r_email := "e@x.com"; r_password := "longenough5" |})).
  repeat split; try reflexivity; try (cbn; lia); discriminate.
Defined.

Lemma loginValidator_accepts_witness :
  loginValidator (syntax := toy_syntax) (credentials "a@x.com" "longenough1") =
    inr {| l_email := "a@x.com"; l_password := "longenough1" |}.
Proof.
  apply (proj2 (loginValidator_accepts (syntax := toy_syntax)
    (credentials "a@x.com" "longenough1")
    {| l_email := "a@x.com"; l_password := "longenough1" |})).
  repeat split; try reflexivity; cbn; lia.
Defined.

(** A name of two characters, no email, a password of five. *)
Lemma reports_follow_schema_witness :
  map field
    [ {| field := "name"; rule := "minLength" |};
      {| field := "email"; rule := "required" |};
      {| field := "password"; rule := "minLength" |} ]
    `sublist_of` ["name"; "email"; "password"] /\
  map field
    [ {| field := "email"; rule := "required" |};
      {| field := "password"; rule := "minLength" |} ]
    `sublist_of` ["email"; "password"].
Proof.
  split.
  - apply (proj1 (reports_follow_schema (syntax := toy_syntax) st0
      {| name := Some "ab"; email := None; password := Some "short" |})).
    reflexivity.
  - apply (proj2 (reports_follow_schema (syntax := toy_syntax) st0
      {| name := Some "ab"; email := None; password := Some "short" |})).
    reflexivity.
Defined.

Lemma missing_fields_are_required_witness :
  exists ms,
    registerValidator (syntax := toy_syntax) st0
      {| name := None; email := None; password := None |} = inl ms /\
    {| field := "email"; rule := "required" |} ∈ ms.
Proof.
  apply (proj1 (missing_fields_are_required (syntax := toy_syntax) st0
    {| name := None; email := None; password := None |})).
  reflexivity.
Defined.

Lemma registered_body_at_login_witness :
  (exists q, loginValidator (syntax := toy_syntax)
     (credentials "e@x.com" "longenough5") = inr q) <->
  (String.length "longenough5" <= 32)%nat.
Proof.
  apply (registered_body_at_login (syntax := toy_syntax) st0
    (credentials "e@x.com" "longenough5")
    {| r_name := None; r_email := "e@x.com"; r_password := "longenough5" |}).
  reflexivity.
Defined.

(** [nobody] has no [@]: the stores [st0] and the empty one answer
    alike. *)
Lemma malformed_email_not_looked_up_witness :
  registerValidator (syntax := toy_syntax) st0
    (credentials "nobody" "longenough5") =
  registerValidator (syntax := toy_syntax)
    {| users := []; users_seq := 1; access_tokens := [];
       access_tokens_seq := 1 |}
    (credentials "nobody" "longenough5").
Proof.
  apply (malformed_email_not_looked_up (syntax := toy_syntax) st0
    {| users := []; users_seq := 1; access_tokens := [];
       access_tokens_seq := 1 |}
    (credentials "nobody" "longenough5") "nobody");
    reflexivity.
Defined.

Lemma lookup_finds_row_witness :
  first_where_email "c@x.com" st0 = Some carol.
Proof.
  apply (lookup_finds_row st0 carol).
  - apply (bool_decide_unpack _). by vm_compute.
  - cbn. rewrite !elem_of_cons. auto.
Defined.

(** Alice logs out of her second session: her first token stays. *)
Lemma logout_spares_other_tokens_witness :
  token1 ∈ access_tokens
    (logout (Some {| user := alice; currentAccessToken := Some 2%positive |})
       st0).2.
Proof.
  apply (proj2 (proj2 (logout_spares_other_tokens
    (Some {| user := alice; currentAccessToken := Some 2%positive |}) st0))).
  - cbn. rewrite !elem_of_cons. auto.
  - intros a [= <-]. right. discriminate.
Defined.

Lemma handlers_keep_users_consistent_witness :
  users_consistent
    (register (hasher := toy_hash) (syntax := toy_syntax) env0 st0
       (credentials "e@x.com" "longenough5")).2.
Proof.
  apply (proj1 (handlers_keep_users_consistent (hasher := toy_hash)
    (syntax := toy_syntax) st0 st0_users_consistent)).
Defined.

Lemma handlers_keep_tokens_consistent_witness :
  tokens_consistent
    (login (hasher := toy_hash) (syntax := toy_syntax) env0 st0
       (credentials "a@x.com" "longenough1")).2.
Proof.
  apply (proj1 (proj2 (handlers_keep_tokens_consistent (hasher := toy_hash)
    (syntax := toy_syntax) st0 st0_tokens_consistent))).
Defined.

Lemma login_then_logout_witness :
  exists t st' st'',
    login (hasher := toy_hash) (syntax := toy_syntax) env0 st0
      (credentials "a@x.com" "longenough1") =
      (Sent (ok (VObj (("token", toJSON t) :: serialize alice))), st') /\
    logout (Some {| user := alice;
                    currentAccessToken := Some (AccessToken.identifier t) |})
      st' = (Sent (ok (VObj [("message", VStr "Logged out")])), st'') /\
    access_tokens st'' = [token1; token2] /\
    users st'' = users st0.
Proof.
  apply (login_then_logout (hasher := toy_hash) (syntax := toy_syntax)
    env0 st0 (credentials "a@x.com" "longenough1")
    {| l_email := "a@x.com"; l_password := "longenough1" |} alice
    st0_tokens_consistent);
    try reflexivity; discriminate.
Defined.

Lemma register_then_login_witness :
  exists t r st'',
    login (hasher := toy_hash) (syntax := toy_syntax) env0
      (register (hasher := toy_hash) (syntax := toy_syntax) env0 st0
         (credentials "e@x.com" "longenough5")).2
      (credentials "e@x.com" "longenough5") = (Sent r, st'') /\
    status r = 200%Z /\
    access_tokens st'' = [token1; token2; t] /\
    AccessToken.tokenableId t = 5%positive.
Proof.
  apply (register_then_login (hasher := toy_hash) (syntax := toy_syntax)
    env0 env0 st0 (credentials "e@x.com" "longenough5")
    {| r_name := None; r_email := "e@x.com"; r_password := "longenough5" |});
    try reflexivity; cbn; lia.
Defined.

Lemma register_twice_witness :
  exists ms,
    register (hasher := toy_hash) (syntax := toy_syntax) env0
      (register (hasher := toy_hash) (syntax := toy_syntax) env0 st0
         (credentials "e@x.com" "longenough5")).2
      (credentials "e@x.com" "another-password") =
      (ValidationError ms,
       (register (hasher := toy_hash) (syntax := toy_syntax) env0 st0
          (credentials "e@x.com" "longenough5")).2) /\
    ms <> [] /\
    length (users
      (register (hasher := toy_hash) (syntax := toy_syntax) env0
         (register (hasher := toy_hash) (syntax := toy_syntax) env0 st0
            (credentials "e@x.com" "longenough5")).2
         (credentials "e@x.com" "another-password")).2) = 5%nat.
Proof.
  apply (register_twice (hasher := toy_hash) (syntax := toy_syntax)
    env0 env0 st0 (credentials "e@x.com" "longenough5")
    (credentials "e@x.com" "another-password")
    {| r_name := None; r_email := "e@x.com"; r_password := "longenough5" |});
    reflexivity.
Defined.

Lemma down_undoes_up_witness :
  Migration.up ∅ ≫= Migration.down = Some ∅.
Proof.
  apply (proj1 (down_undoes_up ∅)). apply lookup_empty.
Defined.

(** Alice logs in twice. *)
Lemma login_twice_distinct_witness :
  exists t t',
    access_tokens
      (login (hasher := toy_hash) (syntax := toy_syntax) env0
         (login (hasher := toy_hash) (syntax := toy_syntax) env0 st0
            (credentials "a@x.com" "longenough1")).2
         (credentials "a@x.com" "longenough1")).2 =
      [token1; token2; t; t'] /\
    AccessToken.identifier t <> AccessToken.identifier t'.
Proof.
  apply (login_twice_distinct (hasher := toy_hash) (syntax := toy_syntax)
    env0 env0 st0 (credentials "a@x.com" "longenough1")
    (credentials "a@x.com" "longenough1")); reflexivity.
Defined.

Lemma registered_row_fits_witness :
  exists u,
    users (register (hasher := toy_hash) (syntax := toy_syntax) env0 st0
             (credentials "e@x.com" "longenough5")).2 =
      [alice; bob; carol; dave; u] /\
    row_fits u.
Proof.
  apply (registered_row_fits (hasher := toy_hash) (syntax := toy_syntax)
    env0 st0 (credentials "e@x.com" "longenough5")
    {| r_name := None; r_email := "e@x.com"; r_password := "longenough5" |}).
  - reflexivity.
  - apply Nat.leb_le. reflexivity.
Defined.

End OnSampleAgain.
